(** * Psychrometric correlations of [psychro.py]

    The module [psychro.py] evaluates five closed-form correlations on
    [numpy] double-precision numbers, and draws two charts with them.

    The development reads the correlations twice.  The first reading is
    over the real numbers of the Standard Library: every arithmetic
    operator of the source is the exact real operation, [np.exp] is [exp],
    [np.log] is [ln] and [x ** y] with a fractional exponent is [Rpower].
    It is the formula each function evaluates, and it is what the
    contracts that equate a function with a formula, the derivative of
    [wsp] and the bounds on values are stated on.  The second reading,
    [Doubles], is over binary64 numbers with the IEEE operations; it is
    where rounding shows: two inputs one rounding apart give one result,
    so that no strict order between results holds for all inputs.

    A theorem on order or sign over the reals is therefore stated with
    inputs in bounded ranges (no overflow, no underflow), away from the
    pole of [w], and either without strictness or for inputs further
    apart than rounding can blur, so that it describes what the program
    returns.  The predicates [p_dom] and [pvs_dom] delimit where the real
    reading of [p] and [pvs] makes sense at all (positive base of the
    power law, positive absolute temperature). *)

From Stdlib Require Import Floats.
From Stdlib Require Import Reals Lra Lia.
From Stdlib Require Import List Sorted.
Import ListNotations.

Set Warnings "-inexact-float".

Local Open Scope R_scope.

(** ** Module constants (lines 13-15 of the source) *)

Definition Mv : R := 18.015286.          (* [kg/kmol] vapor molar mass *)
Definition Mda : R := 28.966.            (* [kg/kmol] air molar mass *)
Definition R_gas : R := 8314.46261815324. (* [J/(kmol*K)]; [R] in the source *)

(** ** The module's name space

    A Python function body looks the functions it calls up in the module's
    globals when it runs.  The record below is that name space restricted
    to the two functions other functions call; each body is written
    against it, so that what a body depends on can be stated. *)

Record globals : Type := Globals {
  g_p : R -> R;      (* the binding of [p] *)
  g_pvs : R -> R     (* the binding of [pvs] *)
}.

(** [p(Z)]: atmospheric pressure as a function of altitude. *)
Definition p (Z : R) : R :=
  101325 * Rpower (1 - 2.25577e-5 * Z) 5.2559.

(** [pvs(t)]: saturation vapor pressure over liquid water. *)
Definition pvs (t : R) : R :=
  let T := t + 273.15 in
  let C8 := -5.8002206e3 in
  let C9 := 1.3914993e0 in
  let C10 := -4.8640239e-2 in
  let C11 := 4.1764768e-5 in
  let C12 := -1.4452093e-8 in
  let C13 := 6.5459673e0 in
  let pws :=
    exp (C8 / T + C9 + C10 * T + C11 * T ^ 2 + C12 * T ^ 3 + C13 * ln T) in
  pws.

(** The exponent of the saturation-pressure correlation, as a function of
    the absolute temperature. *)
Definition ln_pws (T : R) : R :=
  -5.8002206e3 / T + 1.3914993e0 + -4.8640239e-2 * T + 4.1764768e-5 * T ^ 2
  + -1.4452093e-8 * T ^ 3 + 6.5459673e0 * ln T.

(** [w(t, phi, Z)]: humidity ratio. *)
Definition w_body (g : globals) (t phi Z : R) : R :=
  Mv / Mda * phi * g_pvs g t / (g_p g Z - phi * g_pvs g t).

(** [wsp(ts, Z)]: derivative of the saturation curve (Tetens equation). *)
Definition wsp_body (g : globals) (ts Z : R) : R :=
  let a := 17.2693882 in
  let b := 273.16 - 35.86 in
  let C := 610.78 in
  let es := C * exp (a * ts / (ts + b)) in
  let wp :=
    Mv / Mda * a * b * g_p g Z * es / ((ts + b) ^ 2 * (g_p g Z - es) ^ 2) in
  wp.

(** [v(t, w, Z)]: specific volume. *)
Definition v_body (g : globals) (t w Z : R) : R :=
  R_gas / Mv * (Mv / Mda + w) * (t + 273.15) / g_p g Z.

(** The name space of the module as the source defines it. *)
Definition psychro : globals := Globals p pvs.

Definition w : R -> R -> R -> R := w_body psychro.
Definition wsp : R -> R -> R := wsp_body psychro.
Definition v : R -> R -> R -> R := v_body psychro.

(** A call site may leave the keyword parameter [Z=0] out: [None] is the
    omitted argument. *)
Definition keyword (default : R) (a : option R) : R :=
  match a with
  | Some x => x
  | None => default
  end.

Definition w_call (t phi : R) (Z : option R) : R := w t phi (keyword 0 Z).
Definition wsp_call (ts : R) (Z : option R) : R := wsp ts (keyword 0 Z).
Definition v_call (t w : R) (Z : option R) : R := v t w (keyword 0 Z).



(** Where the real reading of [p] and [pvs] is exact: the base of the
    power law and the argument of [np.log] are positive. *)
Definition p_dom (Z : R) : Prop := 0 < 1 - 2.25577e-5 * Z.
Definition pvs_dom (t : R) : Prop := 0 < t + 273.15.

(** The equilibrium pressure at saturation of [wsp] (lines 72-75), and the
    humidity ratio at saturation that the comment of line 76 writes down,
    [ws = Mv/Mda*610.78*exp_t/(p - 610.78*exp_t)]: the function whose
    derivative the docstring of [wsp] announces. *)
Definition es_tetens (ts : R) : R :=
  610.78 * exp (17.2693882 * ts / (ts + (273.16 - 35.86))).

Definition ws_tetens (ts Z : R) : R :=
  Mv / Mda * es_tetens ts / (p Z - es_tetens ts).

(** ** The process loop of [chartA] (lines 177-183)

    [chartA] ends with a loop over the rows of the adjacency matrix [A]:
    row [k] selects the nodes of process [k], and the loop plots their
    points [(t, wv)] as one line and writes the number of each node beside
    its point.  The drawing calls are effects on the current figure; they
    are modelled as the list of calls made, in order. *)

(** [np.nonzero(row)[0]]: the indices of the non-zero entries, ascending.
    The entries of [A] are [-1], [0] and [1]. *)
Fixpoint nonzero_from (i : nat) (row : list Z) : list nat :=
  match row with
  | [] => []
  | a :: row' =>
      if Z.eqb a 0 then nonzero_from (S i) row'
      else i :: nonzero_from (S i) row'
  end.

Definition nonzero (row : list Z) : list nat := nonzero_from 0 row.

(** [xs[idx]] for an array of indices: [None] is the [IndexError] that
    an index past the end raises. *)
Fixpoint take_at (xs : list R) (idx : list nat) : option (list R) :=
  match idx with
  | [] => Some []
  | i :: idx' =>
      match nth_error xs i, take_at xs idx' with
      | Some x, Some r => Some (x :: r)
      | _, _ => None
      end
  end.

(** The two drawing calls of the loop: [plt.plot(xs, ys, linewidth=n)]
    and [plt.text(x, y, str(i))]. *)
Inductive draw : Type :=
| Plot (xs ys : list R) (linewidth : Z)
| Text (x y : R) (i : nat).

(** The inner loop over [j]: one label per selected node. *)
Fixpoint labels (xs ys : list R) (idx : list nat) : list draw :=
  match xs, ys, idx with
  | x :: xs', y :: ys', i :: idx' => Text x y i :: labels xs' ys' idx'
  | _, _, _ => []
  end.

(** One iteration of the outer loop. *)
Definition process (t wv : list R) (row : list Z) : option (list draw) :=
  let tk := nonzero row in
  let wk := nonzero row in
  match take_at t tk with
  | None => None
  | Some xs =>
      match take_at wv wk with
      | None => None
      | Some ys => Some (Plot xs ys 3 :: labels xs ys tk)
      end
  end.

Inductive status : Type :=
| Done
| IndexError.

(** The outer loop: the calls made, and how the loop ended.  A row that
    raises stops the loop; what the rows before it drew stays drawn. *)
Fixpoint processes (t wv : list R) (A : list (list Z))
  : list draw * status :=
  match A with
  | [] => ([], Done)
  | row :: A' =>
      match process t wv row with
      | None => ([], IndexError)
      | Some calls =>
          let (rest, st) := processes t wv A' in (calls ++ rest, st)
      end
  end.

(** The calls one row stands for: the line through the points of its
    nodes, then the number of each node at its point. *)
Definition row_calls (t wv : list R) (row : list Z) : list draw :=
  let idx := nonzero row in
  Plot (map (fun i => nth i t 0) idx) (map (fun i => nth i wv 0) idx) 3
  :: map (fun i => Text (nth i t 0) (nth i wv 0) i) idx.

(** ** The functions in double precision

    The same bodies over binary64 numbers, with the operators of the
    source as the IEEE operations the interpreter performs.  What the
    platform's library computes for [np.exp], [np.log] and [**] is not
    fixed by the source: the functions take it as a parameter, of which
    only [1.0 ** y == 1.0] is assumed.  A decimal literal denotes the
    nearest double, as in the source. *)

Module Doubles.

Record libm : Type := Libm {
  np_exp : float -> float;
  np_log : float -> float;
  power : float -> float -> float;
  power_one : forall y : float, power 1%float y = 1%float
}.

Definition Mv : float := 18.015286%float.
Definition Mda : float := 28.966%float.
Definition R_gas : float := 8314.46261815324%float.

Definition p (m : libm) (Z : float) : float :=
  (101325 * power m (1 - 2.25577e-5 * Z) 5.2559)%float.

Definition pvs (m : libm) (t : float) : float :=
  let T := (t + 273.15)%float in
  let C8 := (-5.8002206e3)%float in
  let C9 := 1.3914993e0%float in
  let C10 := (-4.8640239e-2)%float in
  let C11 := 4.1764768e-5%float in
  let C12 := (-1.4452093e-8)%float in
  let C13 := 6.5459673e0%float in
  let pws :=
    np_exp m (C8 / T + C9 + C10 * T + C11 * power m T 2 + C12 * power m T 3
              + C13 * np_log m T)%float in
  pws.

Definition v (m : libm) (t w Z : float) : float :=
  (R_gas / Mv * (Mv / Mda + w) * (t + 273.15) / p m Z)%float.

End Doubles.

(** ** The contracts as the specification words them *)

Module Spec.

Definition w (t phi Z : R) : R :=
  (18.015286 / 28.966) * phi * pvs t / (p Z - phi * pvs t).

(** The six-term correlation with the constants of the specification. *)
Definition pvs_with (C10 : R) (t : R) : R :=
  let T := t + 273.15 in
  exp (-5800.2206 / T + 1.3914993 + C10 * T + 4.1764768e-5 * T ^ 2
       + -1.4452093e-8 * T ^ 3 + 6.5459673 * ln T).

Definition pvs : R -> R := pvs_with (-0.04864239).

Definition v_with (Rgas : R) (t w Z : R) : R :=
  (Rgas / 18.015286) * (18.015286 / 28.966 + w) * (t + 273.15) / p Z.

Definition v : R -> R -> R -> R := v_with 8314.462618153.

Definition wsp (ts Z : R) : R :=
  let a := 17.2693882 in
  let b := 273.16 - 35.86 in
  let C := 610.78 in
  let es := C * exp (a * ts / (ts + b)) in
  (Mv / Mda) * a * b * p Z * es / ((ts + b) ^ 2 * (p Z - es) ^ 2).

(** The barometric law. *)
Definition p_law (Z : R) : R :=
  101325 * Rpower (1 - 2.25577e-5 * Z) 5.2559.

End Spec.

(** ** Elementary facts *)

Lemma p_0 : p 0 = 101325.
Proof.
  unfold p. replace (1 - 2.25577e-5 * 0) with 1 by lra.
  unfold Rpower. rewrite ln_1, Rmult_0_r, exp_0. lra.
Qed.

Lemma p_pos (Z : R) : 0 < p Z.
Proof.
  unfold p. apply Rmult_lt_0_compat; [lra | apply exp_pos].
Qed.

Lemma pvs_pos (t : R) : 0 < pvs t.
Proof. unfold pvs. cbv zeta. apply exp_pos. Qed.

Lemma Mv_Mda_pos : 0 < Mv / Mda.
Proof. unfold Mv, Mda. lra. Qed.

Lemma quotient_negative (n d : R) : 0 < n -> d < 0 -> n / d < 0.
Proof.
  intros Hn Hd. unfold Rdiv.
  assert (Hi : 0 < / - d) by (apply Rinv_0_lt_compat; lra).
  replace (/ d) with (- / - d) by (field; lra).
  pose proof (Rmult_lt_0_compat _ _ Hn Hi). lra.
Qed.

(** ** Ties in double precision *)

Lemma SFltb_irrefl (s : spec_float) : SFltb s s = false.
Proof.
  unfold SFltb, SFcompare. destruct s as [s | s | | s m e].
  - reflexivity.
  - destruct s; reflexivity.
  - reflexivity.
  - rewrite Z.compare_refl.
    destruct s; rewrite ?Pos.compare_cont_refl, ?Pos.compare_refl;
      reflexivity.
Qed.

Lemma ltb_irrefl (x : float) : (x <? x)%float = false.
Proof. rewrite ltb_spec. apply SFltb_irrefl. Qed.

(** The assumption on the library is satisfiable. *)
Remark libm_inhabited : inhabited Doubles.libm.
Proof.
  constructor.
  exact (Doubles.Libm (fun x => x) (fun x => x) (fun x _ => x)
                      (fun _ => eq_refl)).
Qed.

(** [50.0] and the next double above it give the same [T] on line 29. *)
Lemma T_absorbs_next_double :
  (50 + 273.15 = 0x1.9000000000001p+5 + 273.15)%float.
Proof. reflexivity. Qed.


(** ** Contracts *)

(** C1: for every [t], [phi] and [Z], [w] returns
    [(Mv/Mda) * phi * pvs(t) / (p(Z) - phi * pvs(t))] with [Mv = 18.015286]
    and [Mda = 28.966]; a call that omits the altitude is evaluated at
    [Z = 0]. *)
Theorem w_contract (t phi Z : R) :
  w_call t phi (Some Z) = Spec.w t phi Z /\
  w_call t phi None = Spec.w t phi 0.
Proof. split; reflexivity. Qed.

(** C3 as the specification states it fails: with the specification's
    [C10 = -0.04864239] the correlation differs from what [pvs] returns,
    already at [t = 0]. *)
Lemma pvs_spec_constants_differ : pvs 0 <> Spec.pvs 0.
Proof.
  unfold pvs, Spec.pvs, Spec.pvs_with. cbv zeta. intro H.
  apply exp_inv in H.
  replace (0 + 273.15) with 273.15 in H by lra.
  lra.
Qed.

(** C3 (amended): for every [t], [pvs] converts to [T = t + 273.15] and
    returns [exp(C8/T + C9 + C10*T + C11*T^2 + C12*T^3 + C13*ln(T))] with
    the constants of the specification except [C10], which is
    [-0.048640239]. *)
Theorem pvs_contract (t : R) : pvs t = Spec.pvs_with (-0.048640239) t.
Proof.
  unfold pvs, Spec.pvs_with. cbv zeta. f_equal.
  replace (-5.8002206e3) with (-5800.2206) by lra.
  replace 1.3914993e0 with 1.3914993 by lra.
  replace (-4.8640239e-2) with (-0.048640239) by lra.
  replace 6.5459673e0 with 6.5459673 by lra.
  reflexivity.
Qed.

(** C4 as the specification states it fails: with the gas constant
    [8314.462618153] the formula differs from what [v] returns, for dry
    air at 20 degrees and sea level. *)
Lemma v_spec_constant_differs : v_call 20 0 (Some 0) <> Spec.v 20 0 0.
Proof.
  unfold v_call, keyword, v, v_body, Spec.v, Spec.v_with, psychro, g_p.
  rewrite p_0. unfold R_gas, Mv, Mda. lra.
Qed.

(** C4 (amended): for every [t], [w] and [Z], [v] returns
    [(R/Mv) * (Mv/Mda + w) * (t + 273.15) / p(Z)] with [R] equal to
    [8314.46261815324]; under any binding of the module's names the body
    evaluates to that formula over the binding of [p], so [p] is its only
    callee and [pvs] is not consulted. *)
Theorem v_contract (t w0 Z : R) :
  v t w0 Z = Spec.v_with 8314.46261815324 t w0 Z /\
  (forall g : globals,
      v_body g t w0 Z =
      (8314.46261815324 / 18.015286) * (18.015286 / 28.966 + w0)
      * (t + 273.15) / g_p g Z).
Proof. split; [reflexivity | intro g; reflexivity]. Qed.

(** C5: for every [ts] and [Z], [wsp] computes
    [es = C * exp(a*ts/(ts+b))] with [a = 17.2693882],
    [b = 273.16 - 35.86], [C = 610.78] and returns
    [(Mv/Mda) * a * b * p(Z) * es / ((ts+b)^2 * (p(Z) - es)^2)]; under any
    binding of the module's names the body depends on the binding of [p]
    alone, and the saturation pressure it uses is the Tetens expression,
    not [pvs]. *)
Theorem wsp_contract (ts Z : R) :
  wsp ts Z = Spec.wsp ts Z /\
  (forall g : globals,
      wsp_body g ts Z =
      let es := 610.78 * exp (17.2693882 * ts / (ts + (273.16 - 35.86))) in
      (Mv / Mda) * 17.2693882 * (273.16 - 35.86) * g_p g Z * es
      / ((ts + (273.16 - 35.86)) ^ 2 * (g_p g Z - es) ^ 2)).
Proof. split; [reflexivity | intro g; reflexivity]. Qed.




(** ** Monotonicity of the pressure laws *)

(** C6: [p] is the barometric law [101325 * (1 - 2.25577e-5 * Z)^5.2559];
    on [-500, 10000] it decreases (strictly) with the altitude, and
    [p(0)] is [101325] within [1e-6]. *)
Theorem p_decreasing (Z1 Z2 : R) :
  -500 <= Z1 -> Z1 < Z2 -> Z2 <= 10000 ->
  p Z2 < p Z1 /\
  Rabs (p 0 - 101325) <= 1e-6 /\
  p Z1 = Spec.p_law Z1 /\ p Z2 = Spec.p_law Z2.
Proof.
  intros Hlo Hlt Hhi. repeat split.
  - unfold p. apply Rmult_lt_compat_l; [lra |].
    apply Rlt_Rpower_l; lra.
  - rewrite p_0. replace (101325 - 101325) with 0 by lra.
    rewrite Rabs_R0. lra.
Qed.

Lemma p_decreasing_witness :
  p 10000 < p (-500) /\
  Rabs (p 0 - 101325) <= 1e-6 /\
  p (-500) = Spec.p_law (-500) /\ p 10000 = Spec.p_law 10000.
Proof. apply (p_decreasing (-500) 10000); lra. Defined.

Lemma pvs_exp (t : R) : pvs t = exp (ln_pws (t + 273.15)).
Proof. reflexivity. Qed.

Lemma ln_pws_increasing (T1 T2 : R) :
  273.15 <= T1 -> T1 < T2 -> T2 <= 373.15 -> ln_pws T1 < ln_pws T2.
Proof.
  intros Hlo Hlt Hhi. unfold ln_pws.
  assert (Hln : ln T1 < ln T2) by (apply ln_increasing; lra).
  assert (Hi1 : / 373.15 <= / T1) by (apply Rinv_le_contravar; lra).
  assert (Hi2 : / 373.15 <= / T2) by (apply Rinv_le_contravar; lra).
  assert (Hc : 0.00267 <= / 373.15) by lra.
  assert (Hinv : 0.00267 * 0.00267 * (T2 - T1) <= / T1 - / T2).
  { replace (/ T1 - / T2) with (/ T1 * / T2 * (T2 - T1)) by (field; lra).
    apply Rmult_le_compat_r; [lra |].
    apply Rmult_le_compat; lra. }
  assert (Hsq : 546.3 * (T2 - T1) <= T2 ^ 2 - T1 ^ 2).
  { replace (T2 ^ 2 - T1 ^ 2) with ((T2 + T1) * (T2 - T1)) by ring.
    apply Rmult_le_compat_r; lra. }
  assert (Hcu : T2 ^ 3 - T1 ^ 3 <= 417723 * (T2 - T1)).
  { replace (T2 ^ 3 - T1 ^ 3)
      with ((T2 * T2 + T1 * T2 + T1 * T1) * (T2 - T1)) by ring.
    apply Rmult_le_compat_r; [lra |].
    assert (T2 * T2 <= 373.15 * 373.15) by (apply Rmult_le_compat; lra).
    assert (T1 * T2 <= 373.15 * 373.15) by (apply Rmult_le_compat; lra).
    assert (T1 * T1 <= 373.15 * 373.15) by (apply Rmult_le_compat; lra).
    lra. }
  unfold Rdiv. lra.
Qed.

(** C7 as the specification states it fails: in double precision
    [T = t + 273.15] (line 29) is the same number for [50.0] and for the
    next double above it, so that, whatever the platform computes for
    [np.exp], [np.log] and [**], [pvs] returns the same value at both and
    is not strictly increasing on [0, 100]. *)
Lemma pvs_ties_in_doubles :
  ~ (exists m : Doubles.libm,
        forall t1 t2 : float,
          (0 <=? t1)%float = true ->
          (t1 <? t2)%float = true ->
          (t2 <=? 100)%float = true ->
          (Doubles.pvs m t1 <? Doubles.pvs m t2)%float = true).
Proof.
  intros [m H].
  specialize (H 50%float 0x1.9000000000001p+5%float eq_refl eq_refl eq_refl).
  unfold Doubles.pvs in H. cbv zeta in H.
  rewrite <- T_absorbs_next_double in H.
  rewrite ltb_irrefl in H. discriminate H.
Qed.

(** C7 (amended): for [t1] and [t2] in [0, 100] that are at least [1e-9]
    degrees apart, [t1 + 1e-9 <= t2], [pvs(t1) < pvs(t2)]. *)
Theorem pvs_increasing (t1 t2 : R) :
  0 <= t1 -> t1 + 1e-9 <= t2 -> t2 <= 100 -> pvs t1 < pvs t2.
Proof.
  intros Hlo Hgap Hhi. rewrite !pvs_exp.
  apply exp_increasing, ln_pws_increasing; lra.
Qed.

Lemma pvs_increasing_witness : pvs 0 < pvs 100.
Proof. apply (pvs_increasing 0 100); lra. Defined.

(** ** Sign of the saturation-curve slope *)

Lemma exp_4_le_81 : exp 4 <= 81.
Proof.
  replace 4 with (1 + 1 + 1 + 1) by lra.
  rewrite !exp_plus.
  pose proof exp_le_3 as H3. pose proof (exp_pos 1) as H0.
  assert (H2 : exp 1 * exp 1 <= 3 * 3) by (apply Rmult_le_compat; lra).
  assert (H4 : exp 1 * exp 1 * exp 1 <= 3 * 3 * 3).
  { apply Rmult_le_compat; try lra.
    apply Rmult_le_pos; lra. }
  assert (H5 : exp 1 * exp 1 * exp 1 * exp 1 <= 3 * 3 * 3 * 3).
  { apply Rmult_le_compat; try lra.
    apply Rmult_le_pos; [apply Rmult_le_pos |]; lra. }
  lra.
Qed.

Lemma exp_le_mono (x y : R) : x <= y -> exp x <= exp y.
Proof.
  intros [H | ->]; [left; apply exp_increasing; exact H | right; reflexivity].
Qed.

(** The Tetens saturation pressure stays below the sea-level pressure on
    the range of the chart. *)
Lemma tetens_below_p0 (ts : R) :
  -10 <= ts -> ts <= 50 ->
  610.78 * exp (17.2693882 * ts / (ts + (273.16 - 35.86))) < 101325.
Proof.
  intros Hlo Hhi.
  assert (Hx : 17.2693882 * ts / (ts + (273.16 - 35.86)) <= 4).
  { apply Rmult_le_reg_r with (ts + (273.16 - 35.86)); [lra |].
    unfold Rdiv. rewrite Rmult_assoc, Rinv_l by lra. lra. }
  pose proof (exp_le_mono _ _ Hx) as He.
  pose proof exp_4_le_81. lra.
Qed.

(** C9: [wsp(ts, Z=0)] is strictly positive for [ts] in [-10, 50], whether
    the altitude is passed as [0] or left to its default. *)
Theorem wsp_positive (ts : R) :
  -10 <= ts -> ts <= 50 ->
  0 < wsp_call ts (Some 0) /\ 0 < wsp_call ts None.
Proof.
  intros Hlo Hhi. unfold wsp_call, keyword.
  cut (0 < wsp ts 0); [intro H; split; exact H |].
  unfold wsp, wsp_body, psychro, g_p. cbv zeta.
  rewrite p_0.
  pose proof (tetens_below_p0 ts Hlo Hhi) as Hes.
  set (es := 610.78 * exp (17.2693882 * ts / (ts + (273.16 - 35.86)))) in *.
  assert (Hes0 : 0 < es).
  { unfold es. apply Rmult_lt_0_compat; [lra | apply exp_pos]. }
  apply Rdiv_lt_0_compat.
  - pose proof Mv_Mda_pos as Hk.
    apply Rmult_lt_0_compat; [| exact Hes0].
    apply Rmult_lt_0_compat; [| lra].
    apply Rmult_lt_0_compat; [| lra].
    apply Rmult_lt_0_compat; [exact Hk | lra].
  - apply Rmult_lt_0_compat; apply pow_lt; lra.
Qed.

Lemma wsp_positive_witness :
  0 < wsp_call 20 (Some 0) /\ 0 < wsp_call 20 None.
Proof. apply (wsp_positive 20); lra. Defined.

(** ** Numeric bounds on [ln], [exp] and [pvs] *)

Lemma ln_lower (y : R) : 0 < y -> 1 - / y <= ln y.
Proof.
  intro Hy.
  pose proof (exp_ineq1_le (ln (/ y))) as H.
  rewrite exp_ln in H by (apply Rinv_0_lt_compat; exact Hy).
  rewrite ln_Rinv in H by exact Hy. lra.
Qed.

(** [ln x] from below through [k] steps of ratio [c] and a remainder. *)
Lemma ln_lower_pow (c x : R) (k : nat) :
  0 < c -> 0 < x -> INR k * (1 - / c) + (1 - c ^ k / x) <= ln x.
Proof.
  intros Hc Hx.
  assert (Hck : 0 < c ^ k) by (apply pow_lt; exact Hc).
  assert (Hq : 0 < x / c ^ k) by (apply Rdiv_lt_0_compat; assumption).
  replace (ln x) with (INR k * ln c + ln (x / c ^ k)).
  - pose proof (ln_lower c Hc) as H1.
    pose proof (ln_lower _ Hq) as H2.
    replace (/ (x / c ^ k)) with (c ^ k / x) in H2 by (field; lra).
    assert (H3 : INR k * (1 - / c) <= INR k * ln c).
    { apply Rmult_le_compat_l; [apply pos_INR | exact H1]. }
    lra.
  - rewrite <- ln_pow by exact Hc.
    rewrite <- ln_mult by assumption.
    f_equal. field; lra.
Qed.

Lemma exp_INR_mult (y : R) (n : nat) : exp (INR n * y) = exp y ^ n.
Proof.
  induction n as [| n IH].
  - simpl. rewrite Rmult_0_l. apply exp_0.
  - rewrite S_INR. replace ((INR n + 1) * y) with (y + INR n * y) by ring.
    rewrite exp_plus, IH. reflexivity.
Qed.

(** [exp x] from below by the compound-interest product. *)
Lemma exp_lower_pow (x : R) (n : nat) :
  0 <= x -> (1 + x / INR (S n)) ^ S n <= exp x.
Proof.
  intro Hx.
  assert (Hn : 0 < INR (S n)) by (apply lt_0_INR; lia).
  replace (exp x) with (exp (x / INR (S n)) ^ S n).
  - apply pow_incr. split.
    + assert (0 <= x / INR (S n)).
      { apply Rmult_le_pos; [exact Hx | left; apply Rinv_0_lt_compat, Hn]. }
      lra.
    + apply exp_ineq1_le.
  - rewrite <- exp_INR_mult. f_equal. field. lra.
Qed.

Lemma ln_313_15_lower : 5.6 <= ln 313.15.
Proof.
  pose proof (ln_lower_pow 1.05 313.15 117) as H.
  rewrite INR_IZR_INZ in H. simpl in H.
  assert (H0 : 0 < 1.05) by lra. assert (H1 : 0 < 313.15) by lra.
  specialize (H H0 H1).
  eapply Rle_trans; [| exact H]. lra.
Qed.

Lemma ln_pws_313_15_lower : 7.9 <= ln_pws 313.15.
Proof.
  pose proof ln_313_15_lower as H. unfold ln_pws. lra.
Qed.

(** At 40 degrees the saturation pressure exceeds one hundredth of the
    sea-level pressure. *)
Lemma pvs_40_lower : 1013.25 < pvs 40.
Proof.
  rewrite pvs_exp. replace (40 + 273.15) with 313.15 by lra.
  pose proof ln_pws_313_15_lower as HE.
  assert (H0 : 0 <= ln_pws 313.15) by lra.
  assert (Hbase : 0 <= 1 + 7.9 / 64 <= 1 + ln_pws 313.15 / 64) by lra.
  assert (Hc : 1013.25 < (1 + 7.9 / 64) ^ 64) by (clear; lra).
  pose proof (pow_incr _ _ 64 Hbase) as Hb.
  pose proof (exp_lower_pow _ 63 H0) as Hexp.
  rewrite INR_IZR_INZ in Hexp. simpl Z.of_nat in Hexp.
  eapply Rlt_le_trans; [exact Hc |].
  eapply Rle_trans; [exact Hb | exact Hexp].
Qed.

Lemma ln_upper (y : R) : 0 < y -> ln y <= y - 1.
Proof.
  intro Hy. pose proof (exp_ineq1_le (ln y)) as H.
  rewrite exp_ln in H by exact Hy. lra.
Qed.

(** [ln x] from above, by the same decomposition. *)
Lemma ln_upper_pow (c x : R) (k : nat) :
  0 < c -> 0 < x -> ln x <= INR k * (c - 1) + (x / c ^ k - 1).
Proof.
  intros Hc Hx.
  assert (Hck : 0 < c ^ k) by (apply pow_lt; exact Hc).
  assert (Hq : 0 < x / c ^ k) by (apply Rdiv_lt_0_compat; assumption).
  replace (ln x) with (INR k * ln c + ln (x / c ^ k)).
  - pose proof (ln_upper c Hc) as H1.
    pose proof (ln_upper _ Hq) as H2.
    assert (H3 : INR k * ln c <= INR k * (c - 1)).
    { apply Rmult_le_compat_l; [apply pos_INR | exact H1]. }
    lra.
  - rewrite <- ln_pow by exact Hc.
    rewrite <- ln_mult by assumption.
    f_equal. field; lra.
Qed.

Lemma ln_313_15_upper : ln 313.15 <= 5.9.
Proof.
  pose proof (ln_upper_pow 1.05 313.15 117) as H.
  rewrite INR_IZR_INZ in H. simpl in H.
  assert (H0 : 0 < 1.05) by lra. assert (H1 : 0 < 313.15) by lra.
  specialize (H H0 H1).
  eapply Rle_trans; [exact H |]. lra.
Qed.

Lemma ln_pws_313_15_upper : ln_pws 313.15 <= 10.
Proof.
  pose proof ln_313_15_upper as H. unfold ln_pws. lra.
Qed.

Lemma exp_10_le : exp 10 <= 3 ^ 10.
Proof.
  replace 10 with (INR 10 * 1) by (rewrite INR_IZR_INZ; simpl; lra).
  rewrite exp_INR_mult. apply pow_incr.
  split; [left; apply exp_pos | apply exp_le_3].
Qed.

(** At 40 degrees the saturation pressure is below the sea-level
    pressure: saturated air at sea level is inside the domain of [w]. *)
Lemma pvs_40_upper : pvs 40 < 101325.
Proof.
  rewrite pvs_exp. replace (40 + 273.15) with 313.15 by lra.
  pose proof (exp_le_mono _ _ ln_pws_313_15_upper) as H.
  pose proof exp_10_le as H10.
  assert (H3 : 3 ^ 10 < 101325) by lra.
  lra.
Qed.

(** ** The humidity ratio outside of its domain *)







(** ** Monotonicity of the humidity ratio in the relative humidity *)






(** ** The pressure laws beyond the ranges of the specification *)

Lemma p_lt_on_domain (Z1 Z2 : R) : Z1 < Z2 -> p_dom Z2 -> p Z2 < p Z1.
Proof.
  unfold p_dom. intros Hlt Hdom. unfold p.
  apply Rmult_lt_compat_l; [lra |].
  apply Rlt_Rpower_l; lra.
Qed.

Lemma p_le_on_domain (Z1 Z2 : R) : Z1 <= Z2 -> p_dom Z2 -> p Z2 <= p Z1.
Proof.
  intros [Hlt | ->] Hdom; [left; apply p_lt_on_domain; assumption |].
  right; reflexivity.
Qed.

(** X1: [p] does not increase with the altitude from 5000 m below sea
    level up to 40000 m, close to the zero of the power law. *)
Theorem p_decreasing_on_domain (Z1 Z2 : R) :
  -5000 <= Z1 -> Z1 <= Z2 -> Z2 <= 40000 -> p Z2 <= p Z1.
Proof.
  intros _ Hle Hhi. apply p_le_on_domain; [exact Hle |].
  unfold p_dom. lra.
Qed.

Lemma p_decreasing_on_domain_witness : p 40000 <= p (-5000).
Proof. apply (p_decreasing_on_domain (-5000) 40000); lra. Defined.

Lemma ln_difference_lower (T1 T2 : R) :
  0 < T1 -> 0 < T2 -> (T2 - T1) * / T2 <= ln T2 - ln T1.
Proof.
  intros H1 H2.
  assert (Hq : 0 < T2 * / T1).
  { apply Rmult_lt_0_compat; [exact H2 | apply Rinv_0_lt_compat, H1]. }
  pose proof (ln_lower _ Hq) as H.
  rewrite ln_mult in H
    by (try exact H2; apply Rinv_0_lt_compat, H1).
  rewrite ln_Rinv in H by exact H1.
  replace (/ (T2 * / T1)) with (T1 * / T2) in H by (field; lra).
  replace ((T2 - T1) * / T2) with (1 - T1 * / T2) by (field; lra).
  lra.
Qed.

Lemma ln_pws_increasing_wide (T1 T2 : R) :
  263.15 <= T1 -> T1 < T2 -> T2 <= 473.15 -> ln_pws T1 < ln_pws T2.
Proof.
  intros Hlo Hlt Hhi. unfold ln_pws.
  assert (Hi1 : / 473.15 <= / T1) by (apply Rinv_le_contravar; lra).
  assert (Hi2 : / 473.15 <= / T2) by (apply Rinv_le_contravar; lra).
  assert (Hc : 0.002113 <= / 473.15) by lra.
  assert (Hln : 0.002113 * (T2 - T1) <= ln T2 - ln T1).
  { eapply Rle_trans; [| apply ln_difference_lower; lra].
    rewrite (Rmult_comm (T2 - T1)).
    apply Rmult_le_compat_r; lra. }
  assert (Hinv : 0.002113 * 0.002113 * (T2 - T1) <= / T1 - / T2).
  { replace (/ T1 - / T2) with (/ T1 * / T2 * (T2 - T1)) by (field; lra).
    apply Rmult_le_compat_r; [lra |].
    apply Rmult_le_compat; lra. }
  assert (Hsq : 526.3 * (T2 - T1) <= T2 ^ 2 - T1 ^ 2).
  { replace (T2 ^ 2 - T1 ^ 2) with ((T2 + T1) * (T2 - T1)) by ring.
    apply Rmult_le_compat_r; lra. }
  assert (Hcu : T2 ^ 3 - T1 ^ 3 <= 671613 * (T2 - T1)).
  { replace (T2 ^ 3 - T1 ^ 3)
      with ((T2 * T2 + T1 * T2 + T1 * T1) * (T2 - T1)) by ring.
    apply Rmult_le_compat_r; [lra |].
    assert (T2 * T2 <= 473.15 * 473.15) by (apply Rmult_le_compat; lra).
    assert (T1 * T2 <= 473.15 * 473.15) by (apply Rmult_le_compat; lra).
    assert (T1 * T1 <= 473.15 * 473.15) by (apply Rmult_le_compat; lra).
    lra. }
  unfold Rdiv. lra.
Qed.

Lemma pvs_lt_wide (t1 t2 : R) :
  -10 <= t1 -> t1 < t2 -> t2 <= 200 -> pvs t1 < pvs t2.
Proof.
  intros Hlo Hlt Hhi. rewrite !pvs_exp.
  apply exp_increasing, ln_pws_increasing_wide; lra.
Qed.

(** X3: [pvs] increases from -10 degrees, where the charts start, to 200
    degrees, where the range the source documents for the correlation
    ends: temperatures at least [1e-9] degrees apart give strictly
    ordered pressures. *)
Theorem pvs_increasing_wide (t1 t2 : R) :
  -10 <= t1 -> t1 + 1e-9 <= t2 -> t2 <= 200 -> pvs t1 < pvs t2.
Proof. intros Hlo Hgap Hhi. apply pvs_lt_wide; lra. Qed.

Lemma pvs_increasing_wide_witness : pvs (-10) < pvs 200.
Proof. apply (pvs_increasing_wide (-10) 200); lra. Defined.

(** ** The humidity ratio inside its domain *)

(** [w] as a multiple of the ratio of the vapor pressure to the pressure
    of the dry air. *)
Lemma w_quotient (t phi Z : R) :
  w t phi Z = Mv / Mda * (phi * pvs t / (p Z - phi * pvs t)).
Proof.
  unfold w, w_body, psychro, g_p, g_pvs. unfold Rdiv. ring.
Qed.

Lemma pressure_ratio_lt (x1 x2 P1 P2 : R) :
  0 < x1 -> x1 <= x2 -> x2 < P2 -> P2 <= P1 -> x1 < x2 \/ P2 < P1 ->
  x1 / (P1 - x1) < x2 / (P2 - x2).
Proof.
  intros H0 Hx HP2 HP Hstrict.
  apply (proj1 (Rlt_0_minus _ _)).
  replace (x2 / (P2 - x2) - x1 / (P1 - x1))
    with ((x2 * P1 - x1 * P2) / ((P2 - x2) * (P1 - x1))) by (field; lra).
  apply Rdiv_lt_0_compat; [| apply Rmult_lt_0_compat; lra].
  assert (H1 : x1 * P2 <= x2 * P2) by (apply Rmult_le_compat_r; lra).
  assert (H2 : x2 * P2 <= x2 * P1) by (apply Rmult_le_compat_l; lra).
  destruct Hstrict as [Hs | Hs].
  - assert (x1 * P2 < x2 * P2) by (apply Rmult_lt_compat_r; lra). lra.
  - assert (x2 * P2 < x2 * P1) by (apply Rmult_lt_compat_l; lra). lra.
Qed.

Lemma p_dom_range (Z : R) : -500 <= Z -> Z <= 10000 -> p_dom Z.
Proof. unfold p_dom. intros. lra. Qed.

(** X4: for a temperature in [-10, 200], an altitude in [-500, 10000], a
    relative humidity of at least [1e-6] and a vapor pressure
    [phi * pvs(t)] at most [0.999 * p(Z)], the ratio is positive. *)
Theorem w_positive (t phi Z : R) :
  -10 <= t -> t <= 200 -> -500 <= Z -> Z <= 10000 ->
  1e-6 <= phi -> phi * pvs t <= 0.999 * p Z ->
  0 < w t phi Z.
Proof.
  intros _ _ _ _ Hphi Hin. rewrite w_quotient.
  pose proof (pvs_pos t) as Hs. pose proof (p_pos Z) as HP.
  apply Rmult_lt_0_compat; [apply Mv_Mda_pos |].
  apply Rdiv_lt_0_compat; [apply Rmult_lt_0_compat; lra | lra].
Qed.

Lemma w_positive_witness : 0 < w 40 0.5 0.
Proof.
  apply (w_positive 40 0.5 0); try lra.
  rewrite p_0. pose proof pvs_40_upper. lra.
Defined.

(** X5: at a fixed relative humidity and altitude, warmer air holds more
    water: in the ranges of X4, temperatures at least [1e-9] degrees
    apart give strictly ordered ratios. *)
Theorem w_increasing_in_t (t1 t2 phi Z : R) :
  -10 <= t1 -> t1 + 1e-9 <= t2 -> t2 <= 200 ->
  -500 <= Z -> Z <= 10000 ->
  1e-6 <= phi -> phi * pvs t2 <= 0.999 * p Z ->
  w t1 phi Z < w t2 phi Z.
Proof.
  intros Hlo Hgap Hhi _ _ Hphi Hin. rewrite !w_quotient.
  apply Rmult_lt_compat_l; [apply Mv_Mda_pos |].
  assert (Hlt : t1 < t2) by lra.
  pose proof (pvs_lt_wide t1 t2 Hlo Hlt Hhi) as Hs.
  pose proof (pvs_pos t1) as H1. pose proof (p_pos Z) as HP.
  apply pressure_ratio_lt.
  - apply Rmult_lt_0_compat; lra.
  - apply Rmult_le_compat_l; lra.
  - lra.
  - lra.
  - left. apply Rmult_lt_compat_l; lra.
Qed.

Lemma w_increasing_in_t_witness : w 20 0.5 0 < w 40 0.5 0.
Proof.
  apply (w_increasing_in_t 20 40 0.5 0); try lra.
  rewrite p_0. pose proof pvs_40_upper. lra.
Defined.

(** X6: at a fixed temperature and relative humidity the ratio does not
    decrease with the altitude, as the pressure drops. *)
Theorem w_increasing_in_Z (t phi Z1 Z2 : R) :
  -10 <= t -> t <= 200 ->
  -500 <= Z1 -> Z1 <= Z2 -> Z2 <= 10000 ->
  0 <= phi -> phi * pvs t <= 0.999 * p Z2 ->
  w t phi Z1 <= w t phi Z2.
Proof.
  intros _ _ HZ1 HZ HZ2 Hphi Hin. rewrite !w_quotient.
  apply Rmult_le_compat_l; [left; apply Mv_Mda_pos |].
  assert (Hdom : p_dom Z2) by (apply p_dom_range; lra).
  pose proof (p_le_on_domain Z1 Z2 HZ Hdom) as HP.
  pose proof (pvs_pos t) as Hs. pose proof (p_pos Z2) as HP2.
  destruct Hphi as [Hphi | <-].
  - destruct HP as [HP | HP].
    + left. apply pressure_ratio_lt.
      * apply Rmult_lt_0_compat; assumption.
      * lra.
      * lra.
      * lra.
      * right. exact HP.
    + rewrite HP. right; reflexivity.
  - unfold Rdiv. rewrite !Rmult_0_l. right; reflexivity.
Qed.

Lemma w_increasing_in_Z_witness : w 40 0.5 (-500) <= w 40 0.5 0.
Proof.
  apply (w_increasing_in_Z 40 0.5 (-500) 0); try lra.
  rewrite p_0. pose proof pvs_40_upper. lra.
Defined.

(** ** The specific volume *)

(** X8: for a temperature in [-10, 200], an altitude in [-500, 10000]
    and a humidity ratio in [0, 1000], the volume is positive. *)
Theorem v_positive (t w0 Z : R) :
  -10 <= t -> t <= 200 -> -500 <= Z -> Z <= 10000 ->
  0 <= w0 -> w0 <= 1000 ->
  0 < v t w0 Z.
Proof.
  intros Ht _ _ _ Hw _. unfold v, v_body, psychro, g_p.
  pose proof Mv_Mda_pos as Hk.
  apply Rdiv_lt_0_compat; [| apply p_pos].
  apply Rmult_lt_0_compat; [| lra].
  apply Rmult_lt_0_compat; [unfold R_gas, Mv; lra | lra].
Qed.

Lemma v_positive_witness : 0 < v 20 0 0.
Proof. apply (v_positive 20 0 0); lra. Defined.

(** X9: in the same ranges the volume does not decrease when the
    temperature or the altitude grows. *)
Theorem v_increasing_in_t_and_Z (t1 t2 w0 Z1 Z2 : R) :
  -10 <= t1 -> t1 <= t2 -> t2 <= 200 ->
  -500 <= Z1 -> Z1 <= Z2 -> Z2 <= 10000 ->
  0 <= w0 -> w0 <= 1000 ->
  v t1 w0 Z1 <= v t2 w0 Z2.
Proof.
  intros Ht Hle _ HZ1 HZ HZ2 Hw _. unfold v, v_body, psychro, g_p.
  pose proof Mv_Mda_pos as Hk0.
  set (k := R_gas / Mv * (Mv / Mda + w0)).
  assert (Hk : 0 < k).
  { unfold k. apply Rmult_lt_0_compat; [unfold R_gas, Mv; lra | lra]. }
  pose proof (p_pos Z1) as HP1. pose proof (p_pos Z2) as HP2.
  assert (HP : p Z2 <= p Z1)
    by (apply p_le_on_domain; [exact HZ | apply p_dom_range; lra]).
  apply Rle_trans with (k * (t2 + 273.15) / p Z1).
  - apply Rmult_le_compat_r; [left; apply Rinv_0_lt_compat; exact HP1 |].
    apply Rmult_le_compat_l; lra.
  - apply Rmult_le_compat_l; [apply Rmult_le_pos; lra |].
    apply Rinv_le_contravar; assumption.
Qed.

Lemma v_increasing_in_t_and_Z_witness : v 20 0 0 <= v 30 0 1000.
Proof. apply (v_increasing_in_t_and_Z 20 30 0 0 1000); lra. Defined.

(** ** The slope of the saturation curve *)

Lemma wsp_es_tetens (ts Z : R) :
  wsp ts Z =
  Mv / Mda * 17.2693882 * (273.16 - 35.86) * p Z * es_tetens ts
  / ((ts + (273.16 - 35.86)) ^ 2 * (p Z - es_tetens ts) ^ 2).
Proof. reflexivity. Qed.

Lemma tetens_exponent_derivative (a b x : R) :
  x + b <> 0 ->
  derivable_pt_lim (fun y => a * y / (y + b)) x (a * b / (x + b) ^ 2).
Proof.
  intro Hne.
  pose (f1 := mult_real_fct a id).
  pose (f2 := plus_fct id (fct_cte b)).
  assert (D1 : derivable_pt_lim f1 x (a * 1))
    by apply derivable_pt_lim_scal, derivable_pt_lim_id.
  assert (D2 : derivable_pt_lim f2 x (1 + 0)).
  { apply derivable_pt_lim_plus;
      [apply derivable_pt_lim_id | apply derivable_pt_lim_const]. }
  assert (H2 : f2 x <> 0) by exact Hne.
  pose proof (derivable_pt_lim_div f1 f2 x _ _ D1 D2 H2) as D.
  apply derivable_pt_lim_ext with (f := div_fct f1 f2);
    [intro z; reflexivity |].
  replace (a * b / (x + b) ^ 2)
    with ((a * 1 * f2 x - (1 + 0) * f1 x) / Rsqr (f2 x)); [exact D |].
  unfold f1, f2, mult_real_fct, plus_fct, fct_cte, id, Rsqr.
  field. exact Hne.
Qed.

Lemma es_tetens_derivative (x : R) :
  x + (273.16 - 35.86) <> 0 ->
  derivable_pt_lim es_tetens x
    (es_tetens x
     * (17.2693882 * (273.16 - 35.86) / (x + (273.16 - 35.86)) ^ 2)).
Proof.
  intro Hne.
  pose proof (tetens_exponent_derivative 17.2693882 _ x Hne) as Dg.
  pose proof (derivable_pt_lim_exp
                (17.2693882 * x / (x + (273.16 - 35.86)))) as De.
  pose proof (derivable_pt_lim_comp _ exp x _ _ Dg De) as Dc.
  pose proof (derivable_pt_lim_scal _ 610.78 x _ Dc) as Ds.
  eapply derivable_pt_lim_ext in Ds; [| intro z; reflexivity].
  replace (es_tetens x
           * (17.2693882 * (273.16 - 35.86) / (x + (273.16 - 35.86)) ^ 2))
    with (610.78
          * (exp (17.2693882 * x / (x + (273.16 - 35.86)))
             * (17.2693882 * (273.16 - 35.86)
                / (x + (273.16 - 35.86)) ^ 2)))
    by (unfold es_tetens; ring).
  exact Ds.
Qed.

(** X10: [wsp(ts, Z)] is the derivative in [ts] of the humidity ratio at
    saturation of the Tetens equation, wherever that ratio is defined
    ([ts <> -(273.16 - 35.86)] and [es <> p(Z)]), as the docstring says. *)
Theorem wsp_is_derivative (ts Z : R) :
  ts + (273.16 - 35.86) <> 0 -> es_tetens ts <> p Z ->
  derivable_pt_lim (fun x => ws_tetens x Z) ts (wsp ts Z).
Proof.
  intros Hne Hpole.
  pose proof (es_tetens_derivative ts Hne) as De.
  set (l := es_tetens ts
            * (17.2693882 * (273.16 - 35.86)
               / (ts + (273.16 - 35.86)) ^ 2)) in De.
  pose (f1 := mult_real_fct (Mv / Mda) es_tetens).
  pose (f2 := minus_fct (fct_cte (p Z)) es_tetens).
  assert (D1 : derivable_pt_lim f1 ts (Mv / Mda * l))
    by (apply derivable_pt_lim_scal; exact De).
  assert (D2 : derivable_pt_lim f2 ts (0 - l)).
  { apply derivable_pt_lim_minus;
      [apply derivable_pt_lim_const | exact De]. }
  assert (H2 : f2 ts <> 0).
  { unfold f2, minus_fct, fct_cte. lra. }
  pose proof (derivable_pt_lim_div f1 f2 ts _ _ D1 D2 H2) as D.
  apply derivable_pt_lim_ext with (f := div_fct f1 f2);
    [intro z; reflexivity |].
  replace (wsp ts Z)
    with ((Mv / Mda * l * f2 ts - (0 - l) * f1 ts) / Rsqr (f2 ts));
    [exact D |].
  rewrite wsp_es_tetens.
  unfold l, f1, f2, mult_real_fct, minus_fct, fct_cte, Rsqr, Mv, Mda.
  field. repeat split; lra.
Qed.

Lemma wsp_is_derivative_witness :
  derivable_pt_lim (fun x => ws_tetens x 0) 0 (wsp 0 0).
Proof.
  apply (wsp_is_derivative 0 0); [lra |].
  unfold es_tetens. rewrite p_0.
  replace (17.2693882 * 0 / (0 + (273.16 - 35.86))) with 0 by (field; lra).
  rewrite exp_0. lra.
Defined.



(** ** The arguments the charts pass to [w] *)

(** [exp x] from above, by the same product on [- x]. *)
Lemma exp_upper_pow (x : R) (n : nat) :
  0 <= x -> x < INR (S n) -> exp x <= / (1 - x / INR (S n)) ^ S n.
Proof.
  intros Hx Hn.
  assert (HN : 0 < INR (S n)) by (apply lt_0_INR; lia).
  assert (Hq : 0 < 1 - x / INR (S n)).
  { assert (x / INR (S n) < 1); [| lra].
    apply Rmult_lt_reg_r with (INR (S n)); [exact HN |].
    unfold Rdiv. rewrite Rmult_assoc, Rinv_l by lra. lra. }
  assert (Hlow : (1 - x / INR (S n)) ^ S n <= exp (- x)).
  { replace (exp (- x)) with (exp (- (x / INR (S n))) ^ S n).
    - apply pow_incr. split; [lra |].
      pose proof (exp_ineq1_le (- (x / INR (S n)))). lra.
    - rewrite <- exp_INR_mult. f_equal. field. lra. }
  replace (exp x) with (/ exp (- x)) by (rewrite exp_Ropp, Rinv_inv; reflexivity).
  apply Rinv_le_contravar; [apply pow_lt; exact Hq | exact Hlow].
Qed.

Lemma ln_323_15_upper : ln 323.15 <= 5.925.
Proof.
  pose proof (ln_upper_pow 1.05 323.15 118) as H.
  rewrite INR_IZR_INZ in H. simpl in H.
  assert (H0 : 0 < 1.05) by lra. assert (H1 : 0 < 323.15) by lra.
  specialize (H H0 H1).
  eapply Rle_trans; [exact H |]. lra.
Qed.

Lemma ln_pws_323_15_upper : ln_pws 323.15 <= 10.4.
Proof.
  pose proof ln_323_15_upper as H. unfold ln_pws. lra.
Qed.

(** At 50 degrees, the end of the temperature range of both charts, the
    saturation pressure is still below the sea-level pressure. *)
Lemma pvs_50_upper : pvs 50 < 101325.
Proof.
  rewrite pvs_exp. replace (50 + 273.15) with 323.15 by lra.
  pose proof (exp_le_mono _ _ ln_pws_323_15_upper) as H.
  assert (H0 : 0 <= 10.4) by lra.
  assert (H1 : 10.4 < INR 128) by (rewrite INR_IZR_INZ; simpl; lra).
  pose proof (exp_upper_pow 10.4 127 H0 H1) as Hup.
  rewrite INR_IZR_INZ in Hup. simpl Z.of_nat in Hup.
  assert (Hc : / (1 - 10.4 / 128) ^ 128 < 101325).
  { clear. replace 101325 with (/ / 101325) by (rewrite Rinv_inv; reflexivity).
    apply Rinv_lt_contravar; [| lra].
    apply Rmult_lt_0_compat; [lra |]. apply pow_lt. lra. }
  eapply Rle_lt_trans; [exact H |].
  eapply Rle_lt_trans; [exact Hup | exact Hc].
Qed.

Lemma pvs_le_wide (t1 t2 : R) :
  -10 <= t1 -> t1 <= t2 -> t2 <= 200 -> pvs t1 <= pvs t2.
Proof.
  intros Hlo [Hlt | ->] Hhi; [left; apply pvs_lt_wide; lra | right; reflexivity].
Qed.

(** X12: [chart] draws its saturation curve as [w(t_range, 100)]: with
    the relative humidity given in percent, from 100 up to 1000, the ratio
    is negative at sea level from 40 degrees on, up to the end of the
    range of the correlation. *)
Theorem w_percent_negative (t phi : R) :
  40 <= t -> t <= 200 -> 100 <= phi -> phi <= 1000 ->
  w_call t phi None < 0.
Proof.
  intros Hlo Hhi Hphi _. unfold w_call, keyword.
  assert (Hs : pvs 40 <= pvs t) by (apply pvs_le_wide; lra).
  pose proof pvs_40_lower as H40.
  assert (Hx : 100 * pvs t <= phi * pvs t)
    by (apply Rmult_le_compat_r; lra).
  unfold w, w_body, psychro, g_p, g_pvs. rewrite p_0.
  pose proof Mv_Mda_pos as Hk.
  apply quotient_negative; [| lra].
  rewrite Rmult_assoc. apply Rmult_lt_0_compat; lra.
Qed.

Lemma w_percent_negative_witness : w_call 45 100 None < 0.
Proof. apply (w_percent_negative 45 100); lra. Defined.

(** X13: [chartA] draws its saturation curve as [w(t_range, 1)] and its
    isolines with fractions of one: with the relative humidity in
    [0.01, 1] the ratio is positive at sea level over the whole
    temperature range of the charts. *)
Theorem w_fraction_positive (t phi : R) :
  -10 <= t -> t <= 50 -> 0.01 <= phi -> phi <= 1 -> 0 < w_call t phi None.
Proof.
  intros Hlo Hhi Hphi Hone. unfold w_call, keyword.
  assert (Hs : pvs t <= pvs 50) by (apply pvs_le_wide; lra).
  pose proof pvs_50_upper as H50. pose proof (pvs_pos t) as H0.
  assert (Hx : phi * pvs t <= 1 * pvs t)
    by (apply Rmult_le_compat_r; lra).
  rewrite w_quotient, p_0.
  apply Rmult_lt_0_compat; [apply Mv_Mda_pos |].
  apply Rdiv_lt_0_compat; [apply Rmult_lt_0_compat; lra | lra].
Qed.

Lemma w_fraction_positive_witness : 0 < w_call 20 0.5 None.
Proof. apply (w_fraction_positive 20 0.5); lra. Defined.

(** ** The slope of the saturation curve at altitude *)

Lemma exp_neg_lower_pow (x : R) (n : nat) :
  0 <= x -> x < INR (S n) -> (1 - x / INR (S n)) ^ S n <= exp (- x).
Proof.
  intros Hx Hn.
  assert (HN : 0 < INR (S n)) by (apply lt_0_INR; lia).
  assert (Hq : 0 < 1 - x / INR (S n)).
  { assert (x / INR (S n) < 1); [| lra].
    apply Rmult_lt_reg_r with (INR (S n)); [exact HN |].
    unfold Rdiv. rewrite Rmult_assoc, Rinv_l by lra. lra. }
  replace (exp (- x)) with (exp (- (x / INR (S n))) ^ S n).
  - apply pow_incr. split; [lra |].
    pose proof (exp_ineq1_le (- (x / INR (S n)))). lra.
  - rewrite <- exp_INR_mult. f_equal. field. lra.
Qed.

Lemma ln_base_10000_lower : -0.257 <= ln 0.774423.
Proof.
  pose proof (ln_lower_pow 0.99 0.774423 25) as H.
  rewrite INR_IZR_INZ in H. simpl in H.
  assert (H0 : 0 < 0.99) by lra. assert (H1 : 0 < 0.774423) by lra.
  specialize (H H0 H1).
  eapply Rle_trans; [| exact H]. lra.
Qed.

(** At 10000 m the pressure is still above 24000 Pa. *)
Lemma p_10000_lower : 24000 <= p 10000.
Proof.
  unfold p, Rpower.
  replace (1 - 2.25577e-5 * 10000) with 0.774423 by lra.
  pose proof ln_base_10000_lower as Hln.
  assert (H0 : 0 <= 1.36) by lra.
  assert (H1 : 1.36 < INR 32) by (rewrite INR_IZR_INZ; simpl; lra).
  pose proof (exp_neg_lower_pow 1.36 31 H0 H1) as Hlow.
  rewrite INR_IZR_INZ in Hlow. simpl Z.of_nat in Hlow.
  assert (Hc : 0.24 <= (1 - 1.36 / 32) ^ 32) by (clear; lra).
  assert (He : 0.24 <= exp (5.2559 * ln 0.774423)).
  { eapply Rle_trans; [exact Hc |].
    eapply Rle_trans; [exact Hlow |].
    apply exp_le_mono. lra. }
  clear Hlow Hc. lra.
Qed.

Lemma p_ge_24000 (Z : R) : -500 <= Z -> Z <= 10000 -> 24000 <= p Z.
Proof.
  intros _ Hhi. eapply Rle_trans; [apply p_10000_lower |].
  apply p_le_on_domain; [exact Hhi | unfold p_dom; lra].
Qed.

(** Up to 60 degrees the Tetens saturation pressure stays below it. *)
Lemma tetens_below_24000 (ts : R) :
  -40 <= ts -> ts <= 60 -> es_tetens ts < 24000.
Proof.
  intros Hlo Hhi. unfold es_tetens.
  assert (Hx : 17.2693882 * ts / (ts + (273.16 - 35.86)) <= 3.49).
  { apply Rmult_le_reg_r with (ts + (273.16 - 35.86)); [lra |].
    unfold Rdiv. rewrite Rmult_assoc, Rinv_l by lra. lra. }
  pose proof (exp_le_mono _ _ Hx) as He.
  assert (H0 : 0 <= 3.49) by lra.
  assert (H1 : 3.49 < INR 64) by (rewrite INR_IZR_INZ; simpl; lra).
  pose proof (exp_upper_pow 3.49 63 H0 H1) as Hup.
  rewrite INR_IZR_INZ in Hup. simpl Z.of_nat in Hup.
  assert (Hc : / (1 - 3.49 / 64) ^ 64 < 39).
  { clear. replace 39 with (/ / 39) by (rewrite Rinv_inv; reflexivity).
    apply Rinv_lt_contravar; [| lra].
    apply Rmult_lt_0_compat; [lra |]. apply pow_lt. lra. }
  assert (He39 : exp (17.2693882 * ts / (ts + (273.16 - 35.86))) < 39).
  { eapply Rle_lt_trans; [exact He |].
    eapply Rle_lt_trans; [exact Hup | exact Hc]. }
  clear Hup Hc He. lra.
Qed.

(** X11: the slope is positive for every saturation temperature in
    [-40, 60] at every altitude in [-500, 10000], not only at sea
    level. *)
Theorem wsp_positive_on_domain (ts Z : R) :
  -40 <= ts -> ts <= 60 -> -500 <= Z -> Z <= 10000 -> 0 < wsp ts Z.
Proof.
  intros Hlo Hhi HZ1 HZ2. rewrite wsp_es_tetens.
  pose proof (tetens_below_24000 ts Hlo Hhi) as Hes.
  pose proof (p_ge_24000 Z HZ1 HZ2) as HP.
  assert (Hes0 : 0 < es_tetens ts).
  { unfold es_tetens. apply Rmult_lt_0_compat; [lra | apply exp_pos]. }
  pose proof Mv_Mda_pos as Hk.
  apply Rdiv_lt_0_compat.
  - apply Rmult_lt_0_compat; [| exact Hes0].
    apply Rmult_lt_0_compat; [| lra].
    apply Rmult_lt_0_compat; [| lra].
    apply Rmult_lt_0_compat; [exact Hk | lra].
  - apply Rmult_lt_0_compat; apply pow_lt; lra.
Qed.

Lemma wsp_positive_on_domain_witness : 0 < wsp 20 1000.
Proof. apply (wsp_positive_on_domain 20 1000); lra. Defined.

(** ** The process loop of [chartA] *)

Lemma nonzero_from_In (k : nat) (row : list Z) (i : nat) :
  In i (nonzero_from k row) <->
  (k <= i /\ i - k < length row /\ nth (i - k) row 0%Z <> 0%Z)%nat.
Proof.
  revert k. induction row as [| a row IH]; intro k; simpl.
  - split; [tauto | intros (_ & H & _); lia].
  - destruct (Z.eqb_spec a 0) as [Ha | Ha].
    + rewrite IH. split.
      * intros (Hk & Hlen & Hnz).
        replace (i - k)%nat with (S (i - S k)) by lia.
        repeat split; [lia | lia | exact Hnz].
      * intros (Hk & Hlen & Hnz).
        destruct (i - k)%nat as [| j] eqn:Hj; [congruence |].
        replace (i - S k)%nat with j by lia.
        repeat split; [lia | lia | exact Hnz].
    + simpl. rewrite IH. split.
      * intros [<- | (Hk & Hlen & Hnz)].
        -- rewrite Nat.sub_diag. repeat split; [lia | lia | exact Ha].
        -- replace (i - k)%nat with (S (i - S k)) by lia.
           repeat split; [lia | lia | exact Hnz].
      * intros (Hk & Hlen & Hnz).
        destruct (i - k)%nat as [| j] eqn:Hj; [left; lia | right].
        replace (i - S k)%nat with j by lia.
        repeat split; [lia | lia | exact Hnz].
Qed.

Lemma nonzero_from_sorted (k : nat) (row : list Z) :
  StronglySorted lt (nonzero_from k row).
Proof.
  revert k. induction row as [| a row IH]; intro k; simpl.
  - constructor.
  - destruct (Z.eqb a 0); [apply IH |].
    constructor; [apply IH |].
    apply Forall_forall. intros i Hi.
    apply nonzero_from_In in Hi. lia.
Qed.

Lemma nonzero_In (row : list Z) (i : nat) :
  In i (nonzero row) <-> (i < length row)%nat /\ nth i row 0%Z <> 0%Z.
Proof.
  unfold nonzero. rewrite nonzero_from_In, Nat.sub_0_r.
  split; [tauto | intros [H1 H2]; repeat split; [lia | exact H1 | exact H2]].
Qed.

(** X14: [np.nonzero] returns exactly the positions of the non-zero entries of
    the row, each once and in ascending order. *)
Theorem nonzero_positions (row : list Z) :
  (forall i : nat,
      In i (nonzero row) <->
      (i < length row)%nat /\ nth i row 0%Z <> 0%Z) /\
  StronglySorted lt (nonzero row).
Proof. split; [apply nonzero_In | apply nonzero_from_sorted]. Qed.

Lemma take_at_in_bounds (xs : list R) (idx : list nat) :
  Forall (fun i => (i < length xs)%nat) idx ->
  take_at xs idx = Some (map (fun i => nth i xs 0) idx).
Proof.
  induction 1 as [| i idx Hi _ IH]; simpl; [reflexivity |].
  rewrite IH.
  destruct (nth_error xs i) as [x |] eqn:Hx.
  - rewrite (nth_error_nth _ _ 0 Hx). reflexivity.
  - apply nth_error_None in Hx. lia.
Qed.

Lemma take_at_out_of_bounds (xs : list R) (idx : list nat) :
  take_at xs idx = None <-> exists i, In i idx /\ (length xs <= i)%nat.
Proof.
  induction idx as [| i idx IH]; simpl.
  - split; [discriminate | intros (i & [] & _)].
  - destruct (nth_error xs i) as [x |] eqn:Hx.
    + assert (Hi : (i < length xs)%nat)
        by (apply nth_error_Some; congruence).
      destruct (take_at xs idx) as [r |].
      * split; [discriminate |].
        intros (j & [<- | Hj] & Hlen); [lia |].
        assert (Hnone : @None (list R) = None) by reflexivity.
        destruct IH as [_ IH]. discriminate IH. exists j. tauto.
      * split; [| reflexivity]. intros _.
        destruct IH as [IH _]. destruct (IH eq_refl) as (j & Hj & Hlen).
        exists j. tauto.
    + apply nth_error_None in Hx.
      split; [| reflexivity]. intros _. exists i. tauto.
Qed.

Lemma labels_map (f g : nat -> R) (idx : list nat) :
  labels (map f idx) (map g idx) idx = map (fun i => Text (f i) (g i) i) idx.
Proof.
  induction idx as [| i idx IH]; simpl; [reflexivity | rewrite IH; reflexivity].
Qed.

Lemma process_in_bounds (t wv : list R) (row : list Z) :
  (forall i : nat, In i (nonzero row) ->
                   (i < length t)%nat /\ (i < length wv)%nat) ->
  process t wv row = Some (row_calls t wv row).
Proof.
  intro H. unfold process, row_calls.
  rewrite (take_at_in_bounds t), (take_at_in_bounds wv)
    by (apply Forall_forall; intros i Hi; apply H; exact Hi).
  rewrite labels_map. reflexivity.
Qed.

(** X15: A row whose selected nodes all have a temperature and a humidity ratio
    draws the line through the points [(t[i], wv[i])] of these nodes, in
    the order of their numbers, and labels each point with its number. *)
Theorem process_draws_nodes (t wv : list R) (row : list Z) :
  (forall i : nat,
      (i < length row)%nat -> nth i row 0%Z <> 0%Z ->
      (i < length t)%nat /\ (i < length wv)%nat) ->
  process t wv row = Some (row_calls t wv row).
Proof.
  intro H. apply process_in_bounds. intros i Hi.
  apply nonzero_In in Hi. apply H; tauto.
Qed.

Lemma process_draws_nodes_witness :
  process [20; 30; 25] [0.005; 0.010; 0.008] [1; 0; -1]%Z
  = Some (row_calls [20; 30; 25] [0.005; 0.010; 0.008] [1; 0; -1]%Z).
Proof.
  apply (process_draws_nodes [20; 30; 25] [0.005; 0.010; 0.008] [1; 0; -1]%Z).
  simpl. intros i Hi _. lia.
Defined.

(** X16: A row raises [IndexError] exactly when it selects a node past the end
    of [t] or of [wv]. *)
Theorem process_index_error (t wv : list R) (row : list Z) :
  process t wv row = None <->
  exists i : nat,
    (i < length row)%nat /\ nth i row 0%Z <> 0%Z /\
    ((length t <= i)%nat \/ (length wv <= i)%nat).
Proof.
  unfold process. split.
  - destruct (take_at t (nonzero row)) as [xs |] eqn:Ht.
    + destruct (take_at wv (nonzero row)) as [ys |] eqn:Hw; [discriminate |].
      intros _. apply take_at_out_of_bounds in Hw.
      destruct Hw as (i & Hi & Hlen).
      apply nonzero_In in Hi. exists i. tauto.
    + intros _. apply take_at_out_of_bounds in Ht.
      destruct Ht as (i & Hi & Hlen).
      apply nonzero_In in Hi. exists i. tauto.
  - intros (i & Hlen & Hnz & Hout).
    assert (Hi : In i (nonzero row))
      by (apply nonzero_In; tauto).
    destruct Hout as [Hout | Hout].
    + replace (take_at t (nonzero row)) with (@None (list R));
        [reflexivity |].
      symmetry. apply take_at_out_of_bounds. exists i. tauto.
    + replace (take_at wv (nonzero row)) with (@None (list R));
        [destruct (take_at t (nonzero row)); reflexivity |].
      symmetry. apply take_at_out_of_bounds. exists i. tauto.
Qed.

Lemma nonzero_from_zero_row (k : nat) (row : list Z) :
  Forall (fun a => a = 0%Z) row -> nonzero_from k row = [].
Proof.
  intro H. revert k. induction H as [| a row Ha _ IH]; intro k; simpl.
  - reflexivity.
  - subst a. simpl. apply IH.
Qed.

(** X17: A process without nodes, a row of zeros, draws an empty line and no
    label, whatever [t] and [wv] hold, and never raises. *)
Theorem process_zero_row (t wv : list R) (row : list Z) :
  Forall (fun a => a = 0%Z) row -> process t wv row = Some [Plot [] [] 3].
Proof.
  intro H. unfold process, nonzero.
  rewrite (nonzero_from_zero_row 0 row H). reflexivity.
Qed.

Lemma process_zero_row_witness :
  process [] [] [0; 0; 0]%Z = Some [Plot [] [] 3].
Proof.
  apply (process_zero_row [] [] [0; 0; 0]%Z).
  repeat constructor.
Defined.

Lemma processes_in_bounds (t wv : list R) (A : list (list Z)) :
  Forall (fun row => (length row <= length t)%nat /\
                     (length row <= length wv)%nat) A ->
  processes t wv A = (flat_map (row_calls t wv) A, Done).
Proof.
  induction 1 as [| row A [Ht Hw] _ IH]; simpl; [reflexivity |].
  rewrite process_in_bounds, IH; [reflexivity |].
  intros i Hi. apply nonzero_In in Hi. lia.
Qed.

(** X18: When no row of [A] is longer than [t] or [wv], the loop runs to its
    end and makes, row after row, the calls each row stands for: one line
    per process and one label per node of a process. *)
Theorem processes_complete (t wv : list R) (A : list (list Z)) :
  Forall (fun row => (length row <= length t)%nat /\
                     (length row <= length wv)%nat) A ->
  processes t wv A = (flat_map (row_calls t wv) A, Done).
Proof. apply processes_in_bounds. Qed.

Lemma processes_complete_witness :
  processes [20; 30; 25] [0.005; 0.010; 0.008] [[-1; 1; 0]; [0; -1; 1]]%Z
  = (flat_map (row_calls [20; 30; 25] [0.005; 0.010; 0.008])
       [[-1; 1; 0]; [0; -1; 1]]%Z, Done).
Proof.
  apply (processes_complete [20; 30; 25] [0.005; 0.010; 0.008]
           [[-1; 1; 0]; [0; -1; 1]]%Z).
  repeat constructor; simpl; lia.
Defined.

(** X19: When a row raises, the loop stops there: the calls of the rows before
    it have been made, those of the rows after it are not. *)
Theorem processes_stop_at_error (t wv : list R) (A1 A2 : list (list Z))
        (row : list Z) (calls : list draw) :
  processes t wv A1 = (calls, Done) ->
  process t wv row = None ->
  processes t wv (A1 ++ row :: A2) = (calls, IndexError).
Proof.
  revert calls. induction A1 as [| r A1 IH]; intros calls H1 Hrow; simpl in *.
  - injection H1 as <-. rewrite Hrow. reflexivity.
  - destruct (process t wv r) as [c |]; [| discriminate].
    destruct (processes t wv A1) as [rest st] eqn:Hrest.
    injection H1 as <- ->.
    rewrite (IH rest eq_refl Hrow). reflexivity.
Qed.

Lemma processes_stop_at_error_witness :
  processes [20; 30] [0.005; 0.010] ([[1; -1]] ++ [0; 0; 1] :: [[-1; 1]])%Z
  = (row_calls [20; 30] [0.005; 0.010] [1; -1]%Z, IndexError).
Proof.
  apply (processes_stop_at_error [20; 30] [0.005; 0.010]
           [[1; -1]]%Z [[-1; 1]]%Z [0; 0; 1]%Z).
  - reflexivity.
  - reflexivity.
Defined.

Lemma nonzero_from_opp (k : nat) (row : list Z) :
  nonzero_from k (map Z.opp row) = nonzero_from k row.
Proof.
  revert k. induction row as [| a row IH]; intro k; simpl; [reflexivity |].
  rewrite IH.
  destruct (Z.eqb_spec a 0) as [Ha | Ha];
    destruct (Z.eqb_spec (- a) 0) as [Hb | Hb]; try reflexivity; lia.
Qed.

Lemma process_opp (t wv : list R) (row : list Z) :
  process t wv (map Z.opp row) = process t wv row.
Proof. unfold process, nonzero. rewrite nonzero_from_opp. reflexivity. Qed.

(** X20: The loop looks at which entries of [A] are zero and at nothing else:
    reversing every flow (swapping [-1] and [1]) changes no drawing call,
    so the direction of a process is not drawn. *)
Theorem processes_ignore_direction (t wv : list R) (A : list (list Z)) :
  processes t wv (map (map Z.opp) A) = processes t wv A.
Proof.
  induction A as [| row A IH]; simpl; [reflexivity |].
  rewrite process_opp, IH. reflexivity.
Qed.
